(** * prefer-promise-reject-errors: a shallow embedding of the lint rule

    The rule (src/unnamed/part_000) looks for two kinds of call expression
    that reject a promise, [Promise.reject(x)] and [reject(x)] inside
    [new Promise((resolve, reject) => ...)], and reports those whose first
    argument cannot be an Error.

    The development follows the source file top to bottom: the syntax tree
    and the scope objects the rule reads, the effects it has (reporting, and
    the TypeError of a property read on [undefined]), the two helpers, the
    two listeners, and then the properties. *)

From Stdlib Require Import String List Bool Arith Lia.
From stdpp Require Import base option list strings gmap.

Open Scope string_scope.
Open Scope list_scope.

(** ** The syntax tree (ESTree)

    Every node object has an identity; [===] on two nodes compares it.  It is
    kept as a label [loc] that the parser gives to each node it allocates. *)

Definition loc := nat.

(** The node kinds the rule never looks into.  It only reads their [type]. *)
Inductive OtherKind : Type :=
  | Program | ExpressionStatement | BlockStatement | StaticBlock
  | EmptyStatement | DebuggerStatement | WithStatement | ReturnStatement
  | LabeledStatement | BreakStatement | ContinueStatement | IfStatement
  | SwitchStatement | SwitchCase | ThrowStatement | TryStatement
  | CatchClause | WhileStatement | DoWhileStatement | ForStatement
  | ForInStatement | ForOfStatement | VariableDeclaration
  | VariableDeclarator | ClassDeclaration | ClassExpression | ClassBody
  | MethodDefinition | PropertyDefinition | PrivateIdentifier
  | ThisExpression | Super | ArrayExpression | ObjectExpression | Property
  | UnaryExpression | UpdateExpression | BinaryExpression
  | AssignmentExpression | LogicalExpression | ConditionalExpression
  | SequenceExpression | YieldExpression | AwaitExpression
  | TemplateLiteral | TemplateElement | TaggedTemplateExpression
  | ChainExpression | MetaProperty | ImportExpression | ImportDeclaration
  | ImportSpecifier | ImportDefaultSpecifier | ImportNamespaceSpecifier
  | ExportNamedDeclaration | ExportSpecifier | ExportDefaultDeclaration
  | ExportAllDeclaration.

Definition kind_name (k : OtherKind) : string :=
  match k with
  | Program => "Program"
  | ExpressionStatement => "ExpressionStatement"
  | BlockStatement => "BlockStatement"
  | StaticBlock => "StaticBlock"
  | EmptyStatement => "EmptyStatement"
  | DebuggerStatement => "DebuggerStatement"
  | WithStatement => "WithStatement"
  | ReturnStatement => "ReturnStatement"
  | LabeledStatement => "LabeledStatement"
  | BreakStatement => "BreakStatement"
  | ContinueStatement => "ContinueStatement"
  | IfStatement => "IfStatement"
  | SwitchStatement => "SwitchStatement"
  | SwitchCase => "SwitchCase"
  | ThrowStatement => "ThrowStatement"
  | TryStatement => "TryStatement"
  | CatchClause => "CatchClause"
  | WhileStatement => "WhileStatement"
  | DoWhileStatement => "DoWhileStatement"
  | ForStatement => "ForStatement"
  | ForInStatement => "ForInStatement"
  | ForOfStatement => "ForOfStatement"
  | VariableDeclaration => "VariableDeclaration"
  | VariableDeclarator => "VariableDeclarator"
  | ClassDeclaration => "ClassDeclaration"
  | ClassExpression => "ClassExpression"
  | ClassBody => "ClassBody"
  | MethodDefinition => "MethodDefinition"
  | PropertyDefinition => "PropertyDefinition"
  | PrivateIdentifier => "PrivateIdentifier"
  | ThisExpression => "ThisExpression"
  | Super => "Super"
  | ArrayExpression => "ArrayExpression"
  | ObjectExpression => "ObjectExpression"
  | Property => "Property"
  | UnaryExpression => "UnaryExpression"
  | UpdateExpression => "UpdateExpression"
  | BinaryExpression => "BinaryExpression"
  | AssignmentExpression => "AssignmentExpression"
  | LogicalExpression => "LogicalExpression"
  | ConditionalExpression => "ConditionalExpression"
  | SequenceExpression => "SequenceExpression"
  | YieldExpression => "YieldExpression"
  | AwaitExpression => "AwaitExpression"
  | TemplateLiteral => "TemplateLiteral"
  | TemplateElement => "TemplateElement"
  | TaggedTemplateExpression => "TaggedTemplateExpression"
  | ChainExpression => "ChainExpression"
  | MetaProperty => "MetaProperty"
  | ImportExpression => "ImportExpression"
  | ImportDeclaration => "ImportDeclaration"
  | ImportSpecifier => "ImportSpecifier"
  | ImportDefaultSpecifier => "ImportDefaultSpecifier"
  | ImportNamespaceSpecifier => "ImportNamespaceSpecifier"
  | ExportNamedDeclaration => "ExportNamedDeclaration"
  | ExportSpecifier => "ExportSpecifier"
  | ExportDefaultDeclaration => "ExportDefaultDeclaration"
  | ExportAllDeclaration => "ExportAllDeclaration"
  end.

#[warnings="-register-all"]
Inductive Node : Type :=
| Identifier (l : loc) (name : string)
| Literal (l : loc) (raw : string)
| MemberExpression (l : loc) (object property : Node) (computed : bool)
| CallExpression (l : loc) (callee : Node) (arguments : list Node)
| NewExpression (l : loc) (callee : Node) (arguments : list Node)
| FunctionDeclaration (l : loc) (params : list Node) (body : list Node)
| FunctionExpression (l : loc) (params : list Node) (body : list Node)
| ArrowFunctionExpression (l : loc) (params : list Node) (body : list Node)
| ObjectPattern (l : loc) (properties : list Node)
| ArrayPattern (l : loc) (elements : list Node)
| AssignmentPattern (l : loc) (left right : Node)
| RestElement (l : loc) (argument : Node)
| SpreadElement (l : loc) (argument : Node)
| Other (l : loc) (kind : OtherKind) (children : list Node).

(** [node.type] *)
Definition node_type (n : Node) : string :=
  match n with
  | Identifier _ _ => "Identifier"
  | Literal _ _ => "Literal"
  | MemberExpression _ _ _ _ => "MemberExpression"
  | CallExpression _ _ _ => "CallExpression"
  | NewExpression _ _ _ => "NewExpression"
  | FunctionDeclaration _ _ _ => "FunctionDeclaration"
  | FunctionExpression _ _ _ => "FunctionExpression"
  | ArrowFunctionExpression _ _ _ => "ArrowFunctionExpression"
  | ObjectPattern _ _ => "ObjectPattern"
  | ArrayPattern _ _ => "ArrayPattern"
  | AssignmentPattern _ _ _ => "AssignmentPattern"
  | RestElement _ _ => "RestElement"
  | SpreadElement _ _ => "SpreadElement"
  | Other _ kind _ => kind_name kind
  end.

Definition node_loc (n : Node) : loc :=
  match n with
  | Identifier l _ | Literal l _ | MemberExpression l _ _ _
  | CallExpression l _ _ | NewExpression l _ _
  | FunctionDeclaration l _ _ | FunctionExpression l _ _
  | ArrowFunctionExpression l _ _ | ObjectPattern l _ | ArrayPattern l _
  | AssignmentPattern l _ _ | RestElement l _ | SpreadElement l _
  | Other l _ _ => l
  end.

(** Property reads.  A property the node does not have reads as
    [undefined], here [None]. *)
Definition node_name (n : Node) : option string :=
  match n with Identifier _ s => Some s | _ => None end.

Definition node_callee (n : Node) : option Node :=
  match n with
  | CallExpression _ c _ | NewExpression _ c _ => Some c
  | _ => None
  end.

Definition node_arguments (n : Node) : option (list Node) :=
  match n with
  | CallExpression _ _ args | NewExpression _ _ args => Some args
  | _ => None
  end.

Definition node_params (n : Node) : option (list Node) :=
  match n with
  | FunctionDeclaration _ ps _ | FunctionExpression _ ps _
  | ArrowFunctionExpression _ ps _ => Some ps
  | _ => None
  end.

(** [a === b] on node objects. *)
Definition same_node (a b : Node) : bool := Nat.eqb (node_loc a) (node_loc b).

(** [x === "s"] where [x] may be [undefined]. *)
Definition is_string (x : option string) (s : string) : bool :=
  match x with Some s' => String.eqb s' s | None => false end.

(** ** Scope objects (eslint-scope), read through [sourceCode] *)

Record Reference : Type := mkReference {
  ref_identifier : Node;   (* ref.identifier *)
  ref_isRead : bool        (* ref.isRead() *)
}.

Record ScopeVariable : Type := mkVariable {
  var_name : string;
  var_references : list Reference
}.

(** ** Effects

    [context.report] appends a descriptor to the diagnostics collected so
    far; reading a property of [undefined] or [null] throws. *)

Record Report : Type := mkReport {
  report_node : Node;
  report_messageId : string
}.

Inductive JSError : Type :=
| TypeError (what : string).

Inductive Completion (A : Type) : Type :=
| Normal (a : A)
| Throw (e : JSError).
Arguments Normal {A} a.
Arguments Throw {A} e.

Definition Eff (A : Type) : Type := list Report -> Completion (A * list Report).

Definition ret {A} (a : A) : Eff A := fun sink => Normal (a, sink).

Definition bind {A B} (m : Eff A) (k : A -> Eff B) : Eff B :=
  fun sink =>
    match m sink with
    | Normal (a, sink') => k a sink'
    | Throw e => Throw e
    end.

Definition throw {A} (e : JSError) : Eff A := fun _ => Throw e.

Declare Scope eff_scope.
Delimit Scope eff_scope with eff.
Notation "x <- m ;; k" := (bind m (fun x => k))
  (at level 100, m at next level, right associativity) : eff_scope.
Notation "m ;;; k" := (bind m (fun _ => k))
  (at level 100, right associativity) : eff_scope.
Open Scope eff_scope.

(** [context.report(descriptor)] *)
Definition report (d : Report) : Eff unit := fun sink => Normal (tt, sink ++ [d]).

(** Reading a property of [x]: where [x] is [undefined] or [null] the read
    throws a TypeError; [what] names the read, for the message. *)
Definition deref {A} (what : string) (x : option A) : Eff A :=
  match x with
  | Some a => ret a
  | None => throw (TypeError what)
  end.

(** [array.forEach(f)] *)
Fixpoint forEach {A} (f : A -> Eff unit) (l : list A) : Eff unit :=
  match l with
  | [] => ret tt
  | x :: l' => f x ;;; forEach f l'
  end.

(** [array.filter(p)] for a predicate that may throw. *)
Fixpoint filterE {A} (p : A -> Eff bool) (l : list A) : Eff (list A) :=
  match l with
  | [] => ret []
  | x :: l' =>
      b <- p x ;;
      rest <- filterE p l' ;;
      ret (if b then x :: rest else rest)
  end.

(** [array.find(p)]: the first element that satisfies [p], or [undefined]. *)
Definition array_find {A} (p : A -> bool) (l : list A) : option A := List.find p l.

(** A computation that leaves the sink as it found it: its result, a value
    or an exception, is the same whatever the sink holds. *)
Definition readonly {A} (m : Eff A) : Prop :=
  exists r : Completion A,
    forall sink, m sink = match r with
                          | Normal a => Normal (a, sink)
                          | Throw e => Throw e
                          end.

(** A computation that only appends to the sink, and appends the same
    diagnostics whatever the sink holds. *)
Definition appends {A} (m : Eff A) : Prop :=
  exists r : Completion (A * list Report),
    forall sink, m sink = match r with
                          | Normal (a, out) => Normal (a, sink ++ out)
                          | Throw e => Throw e
                          end.

(** ** astUtils (./utils/ast-utils), of which the rule uses three functions *)

(** Modelled from the spec: [astUtils.isSpecificMemberAccess], whose file is
    not among the sources.  Section 4.1 of the specification gives what the
    rule relies on: the node is a member-access expression of the exact shape
    [<identifier objectName>.<identifier propertyName>], matched by name
    only.  The first argument may be [undefined]. *)
Definition isSpecificMemberAccess
    (node : option Node) (objectName propertyName : string) : bool :=
  match node with
  | Some (MemberExpression _ (Identifier _ o) (Identifier _ p) false) =>
      String.eqb o objectName && String.eqb p propertyName
  | _ => false
  end.

(** Modelled from the spec: [astUtils.isFunction], whose file is not among
    the sources.  Section 3 of the specification: a function-like node is a
    node with an ordered list of declared parameters, an ordinary function
    or an arrow. *)
Definition isFunction (node : Node) : bool :=
  match node with
  | FunctionDeclaration _ _ _ | FunctionExpression _ _ _
  | ArrowFunctionExpression _ _ _ => true
  | _ => false
  end.

(** What the traverser tells the listeners: it enters a node before its
    children and leaves it after them. *)
Inductive Event : Type :=
| Enter (node : Node)
| Exit (node : Node).

(** What the rule reads from its surroundings. *)
Record Env : Type := mkEnv {
  allowEmptyReject : bool;                            (* context.options[0] *)
  getDeclaredVariables : Node -> list ScopeVariable;  (* context.sourceCode *)
  couldBeError : Node -> bool;      (* astUtils.couldBeError, a black box *)
  parents : gmap loc Node           (* node.parent, keyed by the child *)
}.

(** The object [create] returns: one listener per selector. *)
Record RuleListener : Type := mkListener {
  on_CallExpression : Node -> Eff unit;         (* "CallExpression" *)
  on_NewExpression_exit : Node -> Eff unit      (* "NewExpression:exit" *)
}.

Section Rule.

Variable env : Env.

Definition node_parent (n : Node) : option Node := parents env !! node_loc n.

Definition rejectAnError (callExpression : Node) : Report :=
  {| report_node := callExpression; report_messageId := "rejectAnError" |}.

(** [arguments[0].type === "Identifier" && arguments[0].name === "undefined"] *)
Definition is_undefined_identifier (arg : Node) : bool :=
  String.eqb (node_type arg) "Identifier" && is_string (node_name arg) "undefined".

(** Lines 62-77.  [arguments[0]] is only read when the list is not
    empty: the two tests on it sit behind [!arguments.length ||]. *)
Definition checkRejectCall (callExpression : Node) : Eff unit :=
  args <- deref "callExpression.arguments" (node_arguments callExpression) ;;
  let no_arguments := Nat.eqb (length args) 0 in
  if no_arguments && allowEmptyReject env then ret tt
  else if no_arguments
          || match args with
             | arg0 :: _ => negb (couldBeError env arg0) || is_undefined_identifier arg0
             | [] => false
             end
  then report (rejectAnError callExpression)
  else ret tt.

(** Lines 84-90. *)
Definition isPromiseRejectCall (node : Node) : bool :=
  isSpecificMemberAccess (node_callee node) "Promise" "reject".

(** Lines 98-102. *)
Definition CallExpression_listener (node : Node) : Eff unit :=
  if isPromiseRejectCall node then checkRejectCall node else ret tt.

(** Lines 141-146, the predicate of the second [filter]. *)
Definition is_callee_of_parent (ref : Reference) : Eff bool :=
  parent <- deref "ref.identifier.parent" (node_parent (ref_identifier ref)) ;;
  ret (String.eqb (node_type parent) "CallExpression"
       && match node_callee parent with
          | Some callee => same_node (ref_identifier ref) callee
          | None => false
          end).

(** Lines 118-146: from the callback and its second parameter to the
    references that call the parameter. *)
Definition rejectCallReferences (callback param1 : Node) : Eff (list Reference) :=
  variable <- deref "find(...).references"
                (array_find
                   (fun variable => is_string (node_name param1) (var_name variable))
                   (getDeclaredVariables env callback)) ;;
  filterE is_callee_of_parent
    (List.filter ref_isRead (var_references variable)).

(** Lines 110-146: the condition of the [if], then the chain up to the
    last [filter].  Where the condition fails nothing is looked up. *)
Definition locateRejectCalls (node : Node) : Eff (list Reference) :=
  callee <- deref "node.callee" (node_callee node) ;;
  if String.eqb (node_type callee) "Identifier"
     && is_string (node_name callee) "Promise"
  then
    args <- deref "node.arguments" (node_arguments node) ;;
    match args with
    | [] => ret []
    | callback :: _ =>
        if isFunction callback then
          params <- deref "node.arguments[0].params" (node_params callback) ;;
          match params with
          | _ :: param1 :: _ =>
              if String.eqb (node_type param1) "Identifier"
              then rejectCallReferences callback param1
              else ret []
          | _ => ret []
          end
        else ret []
    end
  else ret [].

(** Line 149, the body of the [forEach]. *)
Definition checkReference (ref : Reference) : Eff unit :=
  parent <- deref "ref.identifier.parent" (node_parent (ref_identifier ref)) ;;
  checkRejectCall parent.

(** Lines 109-151. *)
Definition NewExpression_exit_listener (node : Node) : Eff unit :=
  refs <- locateRejectCalls node ;;
  forEach checkReference refs.

(** Lines 49-153. *)
Definition create : RuleListener :=
  {| on_CallExpression := CallExpression_listener;
     on_NewExpression_exit := NewExpression_exit_listener |}.

(** *** The traversal that drives the listeners *)

(** A listener runs on the events its selector matches: ["CallExpression"]
    on entering a call expression, ["NewExpression:exit"] on leaving a
    new-expression. *)
Definition dispatch (listeners : RuleListener) (e : Event) : Eff unit :=
  match e with
  | Enter node =>
      if String.eqb (node_type node) "CallExpression"
      then on_CallExpression listeners node else ret tt
  | Exit node =>
      if String.eqb (node_type node) "NewExpression"
      then on_NewExpression_exit listeners node else ret tt
  end.

(** One analysis of a tree: the events of its traversal, in order. *)
Definition run (events : list Event) : Eff unit :=
  forEach (dispatch create) events.

(** *** What the rule expects of the scope analysis and of the traverser *)

(** The test of the second [filter] on a reference whose identifier is
    linked to its parent. *)
Definition callsParameter (ref : Reference) : bool :=
  match node_parent (ref_identifier ref) with
  | Some parent =>
      String.eqb (node_type parent) "CallExpression"
      && match node_callee parent with
         | Some callee => same_node (ref_identifier ref) callee
         | None => false
         end
  | None => false
  end.

(** The scope analysis declares a variable for every parameter of the
    callback that is a plain identifier. *)
Definition declaresParameters (callback : Node) : Prop :=
  forall params l name,
    node_params callback = Some params ->
    In (Identifier l name) params ->
    exists variable,
      In variable (getDeclaredVariables env callback)
      /\ var_name variable = name.

(** The identifiers that refer to the callback's variables have been
    entered by the traverser, so each has its [parent]. *)
Definition referencesLinked (callback : Node) : Prop :=
  forall variable ref,
    In variable (getDeclaredVariables env callback) ->
    In ref (var_references variable) ->
    exists parent, node_parent (ref_identifier ref) = Some parent.

(** *** What one run validates and what it reports *)

(** The diagnostics a computation adds to an empty sink. *)
Definition diagnostics {A} (m : Eff A) : list Report :=
  match m [] with
  | Normal (_, out) => out
  | Throw _ => []
  end.

(** A rejection site fails when the validator, run on it alone, reports. *)
Definition siteFails (site : Node) : bool :=
  match diagnostics (checkRejectCall site) with
  | [] => false
  | _ :: _ => true
  end.

(** The call expressions line 149 hands to [checkRejectCall]. *)
Definition referenceSites (refs : list Reference) : list Node :=
  omap (fun ref => node_parent (ref_identifier ref)) refs.

(** The rejection sites one event contributes: the call itself where
    [isPromiseRejectCall] holds, the calls of the reject parameter for a
    promise construction. *)
Definition eventSites (e : Event) : Completion (list Node) :=
  match e with
  | Enter node =>
      Normal (if String.eqb (node_type node) "CallExpression"
                 && isPromiseRejectCall node
              then [node] else [])
  | Exit node =>
      if String.eqb (node_type node) "NewExpression" then
        match locateRejectCalls node [] with
        | Normal (refs, _) => Normal (referenceSites refs)
        | Throw err => Throw err
        end
      else Normal []
  end.

Fixpoint allSites (events : list Event) : Completion (list Node) :=
  match events with
  | [] => Normal []
  | e :: events' =>
      match eventSites e with
      | Normal sites =>
          match allSites events' with
          | Normal sites' => Normal (sites ++ sites')
          | Throw err => Throw err
          end
      | Throw err => Throw err
      end
  end.

End Rule.

(** ** Comparing two runs *)

(** Two environments that hold the same tree: the same scope analysis and
    the same parent links.  They may differ in the option and in
    [couldBeError]. *)
Definition sameTree (env1 env2 : Env) : Prop :=
  getDeclaredVariables env1 = getDeclaredVariables env2
  /\ parents env1 = parents env2.

(** The diagnostic is at a call that passes at least one argument. *)
Definition hasArgument (d : Report) : bool :=
  match node_arguments (report_node d) with
  | Some (_ :: _) => true
  | _ => false
  end.

(** ** The traverser, and programs to run the rule on *)

(** Modelled from the spec: the traversal, which is not among the sources.
    Sections 4.2 and 9 of the specification: a node is entered before its
    subtree and left on completion of it, and entering a node links each of
    its children to it. *)
Fixpoint traverse (n : Node) : list Event :=
  Enter n ::
  match n with
  | Identifier _ _ | Literal _ _ => []
  | MemberExpression _ o p _ => traverse o ++ traverse p
  | CallExpression _ c args | NewExpression _ c args =>
      traverse c ++ flat_map traverse args
  | FunctionDeclaration _ ps b | FunctionExpression _ ps b
  | ArrowFunctionExpression _ ps b =>
      flat_map traverse ps ++ flat_map traverse b
  | ObjectPattern _ ns | ArrayPattern _ ns | Other _ _ ns =>
      flat_map traverse ns
  | AssignmentPattern _ a b => traverse a ++ traverse b
  | RestElement _ a | SpreadElement _ a => traverse a
  end ++ [Exit n].

Definition children (n : Node) : list Node :=
  match n with
  | Identifier _ _ | Literal _ _ => []
  | MemberExpression _ o p _ => [o; p]
  | CallExpression _ c args | NewExpression _ c args => c :: args
  | FunctionDeclaration _ ps b | FunctionExpression _ ps b
  | ArrowFunctionExpression _ ps b => ps ++ b
  | ObjectPattern _ ns | ArrayPattern _ ns | Other _ _ ns => ns
  | AssignmentPattern _ a b => [a; b]
  | RestElement _ a | SpreadElement _ a => [a]
  end.

(** Modelled from the spec: the [parent] links of a traversed tree (section
    9, the linking pass).  The root has none. *)
Definition link (root : Node) : gmap loc Node :=
  foldr (fun e m =>
           match e with
           | Enter n => foldr (fun c m' => <[node_loc c := n]> m') m (children n)
           | Exit _ => m
           end)
        ∅ (traverse root).

(** A stand-in for [astUtils.couldBeError] in the examples: identifiers,
    calls, constructions and member accesses may be Errors, literals and
    the rest may not. *)
Definition exampleCouldBeError (n : Node) : bool :=
  match n with
  | Identifier _ _ | CallExpression _ _ _ | NewExpression _ _ _
  | MemberExpression _ _ _ _ => true
  | _ => false
  end.

(** [Promise.reject(<args>)] *)
Definition promiseReject (args : list Node) : Node :=
  CallExpression 1
    (MemberExpression 2 (Identifier 3 "Promise") (Identifier 4 "reject") false)
    args.

(** [(resolve, <param1>) => { <stmt> }] and [new Promise(<that>)] *)
Definition exampleCallback (param1 : Node) (stmt : Node) : Node :=
  ArrowFunctionExpression 12 [Identifier 13 "resolve"; param1]
    [Other 15 BlockStatement [Other 16 ExpressionStatement [stmt]]].

Definition newPromise (param1 : Node) (stmt : Node) : Node :=
  NewExpression 10 (Identifier 11 "Promise") [exampleCallback param1 stmt].

Definition rejectParam : Node := Identifier 14 "reject".

(** [reject('bad')] *)
Definition rejectBad : Node :=
  CallExpression 20 (Identifier 21 "reject") [Literal 22 "'bad'"].

(** [resolve(reject)] *)
Definition resolveReject : Node :=
  CallExpression 20 (Identifier 21 "resolve") [Identifier 22 "reject"].

(** [reject(5), reject(new Error(m)), reject()]: three calls of one
    parameter, as the body of the callback. *)
Definition threeRejects : Node :=
  Other 17 SequenceExpression
    [CallExpression 20 (Identifier 21 "reject") [Literal 22 "5"];
     CallExpression 23 (Identifier 24 "reject")
       [NewExpression 25 (Identifier 26 "Error") [Identifier 27 "m"]];
     CallExpression 28 (Identifier 29 "reject") []].

Definition threeRejectReads : list Node :=
  [Identifier 21 "reject"; Identifier 24 "reject"; Identifier 29 "reject"].

(** [new window.Promise((resolve, reject) => { reject('bad') })] *)
Definition newWindowPromise : Node :=
  NewExpression 10
    (MemberExpression 11 (Identifier 30 "window") (Identifier 31 "Promise") false)
    [exampleCallback rejectParam rejectBad].

(** [Promise((resolve, reject) => { reject('bad') })], without [new] *)
Definition callPromise : Node :=
  CallExpression 10 (Identifier 11 "Promise")
    [exampleCallback rejectParam rejectBad].

(** The scope of the callback at [12]: [resolve] unused, [reject] read at the
    given identifiers. *)
Definition exampleScope (rejectReads : list Node) (callback : Node) : list ScopeVariable :=
  if Nat.eqb (node_loc callback) 12 then
    [ {| var_name := "resolve"; var_references := [] |};
      {| var_name := "reject";
         var_references :=
           map (fun i => {| ref_identifier := i; ref_isRead := true |}) rejectReads |} ]
  else [].

(** A scope analysis that lists another variable named [reject], without
    references, before the one of the parameter. *)
Definition shadowingScope (rejectReads : list Node) (callback : Node)
  : list ScopeVariable :=
  {| var_name := "reject"; var_references := [] |}
  :: exampleScope rejectReads callback.

(** [couldBeError] for a checker that takes every expression for a possible
    Error. *)
Definition tolerantCouldBeError (n : Node) : bool := true.

Definition exampleEnv (allow : bool) (rejectReads : list Node) (program : Node) : Env :=
  {| allowEmptyReject := allow;
     getDeclaredVariables := exampleScope rejectReads;
     couldBeError := exampleCouldBeError;
     parents := link program |}.

(** One whole analysis of a program. *)
Definition lint (allow : bool) (rejectReads : list Node) (program : Node)
  : Completion (unit * list Report) :=
  run (exampleEnv allow rejectReads program) (traverse program) [].

(** * Properties *)

(** ** The effect monad *)

Lemma bind_Normal {A B} (m : Eff A) (k : A -> Eff B) sink a sink' :
  m sink = Normal (a, sink') -> bind m k sink = k a sink'.
Proof. intros H. unfold bind. now rewrite H. Qed.

Lemma readonly_ret {A} (a : A) : readonly (ret a).
Proof. now exists (Normal a). Qed.

Lemma readonly_throw {A} (e : JSError) : readonly (@throw A e).
Proof. now exists (Throw e). Qed.

Lemma readonly_deref {A} what (x : option A) : readonly (deref what x).
Proof. destruct x; [apply readonly_ret | apply readonly_throw]. Qed.

Lemma readonly_bind {A B} (m : Eff A) (k : A -> Eff B) :
  readonly m -> (forall a, readonly (k a)) -> readonly (bind m k).
Proof.
  intros [[a|e] Hr] Hk.
  - destruct (Hk a) as [r' Hr']. exists r'. intros sink.
    unfold bind. rewrite Hr. apply Hr'.
  - exists (Throw e). intros sink. unfold bind. now rewrite Hr.
Qed.

Lemma readonly_filterE {A} (p : A -> Eff bool) (l : list A) :
  (forall x, readonly (p x)) -> readonly (filterE p l).
Proof.
  intros Hp. induction l as [|x l IH]; simpl.
  - apply readonly_ret.
  - apply readonly_bind; [apply Hp|]. intros b.
    apply readonly_bind; [apply IH|]. intros rest. apply readonly_ret.
Qed.

Lemma readonly_result {A} (m : Eff A) a sink out :
  readonly m -> m sink = Normal (a, out) ->
  out = sink /\ forall sink', m sink' = Normal (a, sink').
Proof.
  intros [[a'|e] Hr] H; rewrite Hr in H; [|discriminate].
  injection H as -> ->. split; [reflexivity|]. intros sink'. apply Hr.
Qed.

Lemma appends_readonly {A} (m : Eff A) : readonly m -> appends m.
Proof.
  intros [[a|e] Hr].
  - exists (Normal (a, [])). intros sink. now rewrite app_nil_r.
  - now exists (Throw e).
Qed.

Lemma appends_report (d : Report) : appends (report d).
Proof. now exists (Normal (tt, [d])). Qed.

Lemma appends_bind {A B} (m : Eff A) (k : A -> Eff B) :
  appends m -> (forall a, appends (k a)) -> appends (bind m k).
Proof.
  intros [[[a out]|e] Hr] Hk.
  - destruct (Hk a) as [[[b out']|e'] Hr'].
    + exists (Normal (b, out ++ out')). intros sink.
      unfold bind. rewrite Hr, Hr'. now rewrite app_assoc.
    + exists (Throw e'). intros sink. unfold bind. now rewrite Hr, Hr'.
  - exists (Throw e). intros sink. unfold bind. now rewrite Hr.
Qed.

Lemma appends_forEach {A} (f : A -> Eff unit) (l : list A) :
  (forall x, appends (f x)) -> appends (forEach f l).
Proof.
  intros Hf. induction l as [|x l IH]; simpl.
  - apply appends_readonly, readonly_ret.
  - apply appends_bind; [apply Hf | intros _; apply IH].
Qed.

(** ** Shapes behind the [type] tests *)

Lemma kind_name_not_modelled (k : OtherKind) :
  kind_name k <> "Identifier" /\ kind_name k <> "CallExpression"
  /\ kind_name k <> "NewExpression".
Proof. destruct k; repeat split; discriminate. Qed.

Lemma type_Identifier (n : Node) :
  node_type n = "Identifier" <-> exists l s, n = Identifier l s.
Proof.
  split.
  - destruct n; try discriminate; [eauto|].
    intros H. now apply kind_name_not_modelled in H.
  - now intros (l & s & ->).
Qed.

Lemma type_CallExpression (n : Node) :
  node_type n = "CallExpression" <-> exists l c args, n = CallExpression l c args.
Proof.
  split.
  - destruct n; try discriminate; [eauto|].
    intros H. now apply kind_name_not_modelled in H.
  - now intros (l & c & args & ->).
Qed.

Lemma type_NewExpression (n : Node) :
  node_type n = "NewExpression" <-> exists l c args, n = NewExpression l c args.
Proof.
  split.
  - destruct n; try discriminate; [eauto|].
    intros H. now apply kind_name_not_modelled in H.
  - now intros (l & c & args & ->).
Qed.

Lemma is_string_true x s : is_string x s = true <-> x = Some s.
Proof.
  destruct x as [s'|]; simpl; [|easy].
  rewrite String.eqb_eq. split; congruence.
Qed.

Lemma is_undefined_identifier_spec (arg : Node) :
  is_undefined_identifier arg = true <-> exists l, arg = Identifier l "undefined".
Proof.
  unfold is_undefined_identifier.
  rewrite andb_true_iff, String.eqb_eq, is_string_true, type_Identifier.
  split.
  - intros [(l & s & ->) H]. simpl in H. injection H as ->. eauto.
  - intros (l & ->). eauto.
Qed.

Section Properties.

Variable env : Env.

(** *** The Argument Validator *)

(** What [checkRejectCall] does, by the shape of the argument list. *)
Lemma checkRejectCall_empty (site : Node) sink :
  node_arguments site = Some [] ->
  checkRejectCall env site sink =
    Normal (tt, if allowEmptyReject env then sink
                else sink ++ [rejectAnError site]).
Proof.
  intros H. unfold checkRejectCall.
  rewrite H. unfold bind; simpl.
  now destruct (allowEmptyReject env).
Qed.

Lemma checkRejectCall_first (site arg0 : Node) rest sink :
  node_arguments site = Some (arg0 :: rest) ->
  checkRejectCall env site sink =
    Normal (tt, if negb (couldBeError env arg0) || is_undefined_identifier arg0
                then sink ++ [rejectAnError site] else sink).
Proof.
  intros H. unfold checkRejectCall.
  rewrite H. unfold bind; simpl.
  now destruct (negb (couldBeError env arg0) || is_undefined_identifier arg0).
Qed.

Lemma checkRejectCall_verdict (site : Node) args sink :
  node_arguments site = Some args ->
  checkRejectCall env site sink =
    Normal (tt, sink ++ (if siteFails env site then [rejectAnError site] else [])).
Proof.
  intros H. unfold siteFails, diagnostics. destruct args as [|arg0 rest].
  - rewrite !(checkRejectCall_empty _ _ H).
    destruct (allowEmptyReject env); simpl; now rewrite ?app_nil_r.
  - rewrite !(checkRejectCall_first _ _ _ _ H).
    destruct (negb (couldBeError env arg0) || is_undefined_identifier arg0);
      simpl; now rewrite ?app_nil_r.
Qed.

Lemma appends_checkRejectCall (site : Node) : appends (checkRejectCall env site).
Proof.
  unfold checkRejectCall.
  apply appends_bind; [apply appends_readonly, readonly_deref|]. intros args.
  repeat match goal with
         | |- appends (if ?b then _ else _) => destruct b
         end;
    first [apply appends_report | apply appends_readonly, readonly_ret].
Qed.

(** C1: at a rejection site with at least one argument the validator
    completes, and it reports the site if and only if [couldBeError]
    rejects the first argument or the first argument is the identifier
    [undefined]; so [undefined] is reported whatever [couldBeError] says
    of it. *)
Theorem C1_first_argument_violation (site arg0 : Node) (rest : list Node)
    (sink : list Report) :
  node_arguments site = Some (arg0 :: rest) ->
  (exists violation : bool,
      checkRejectCall env site sink =
        Normal (tt, if violation then sink ++ [rejectAnError site] else sink)
      /\ (violation = true <->
          couldBeError env arg0 = false
          \/ exists l, arg0 = Identifier l "undefined"))
  /\ ((exists l, arg0 = Identifier l "undefined") ->
      checkRejectCall env site sink = Normal (tt, sink ++ [rejectAnError site])).
Proof.
  intros H. split.
  - eexists. split; [exact (checkRejectCall_first _ _ _ _ H)|].
    rewrite orb_true_iff, negb_true_iff, is_undefined_identifier_spec.
    reflexivity.
  - intros Hu. rewrite (checkRejectCall_first _ _ _ _ H).
    apply is_undefined_identifier_spec in Hu. rewrite Hu.
    now rewrite orb_true_r.
Qed.

(** C2: at a rejection site with no argument the validator completes, and
    it reports the site if and only if [allowEmptyReject] is false; with
    [allowEmptyReject] true the sink is left as it was. *)
Theorem C2_empty_reject_violation (site : Node) (sink : list Report) :
  node_arguments site = Some [] ->
  (exists violation : bool,
      checkRejectCall env site sink =
        Normal (tt, if violation then sink ++ [rejectAnError site] else sink)
      /\ (violation = true <-> allowEmptyReject env = false))
  /\ (allowEmptyReject env = true ->
      checkRejectCall env site sink = Normal (tt, sink)).
Proof.
  intros H. rewrite (checkRejectCall_empty _ _ H). split.
  - exists (negb (allowEmptyReject env)).
    destruct (allowEmptyReject env); simpl; split; try reflexivity;
      split; congruence.
  - now intros ->.
Qed.

(** C7: two rejection sites whose argument lists are both empty, or both
    non-empty with the same first argument, get the same verdict from the
    validator; what follows the first argument plays no part. *)
Theorem C7_later_arguments_ignored (site1 site2 : Node)
    (args1 args2 : list Node) :
  node_arguments site1 = Some args1 ->
  node_arguments site2 = Some args2 ->
  (args1 = [] <-> args2 = []) ->
  head args1 = head args2 ->
  exists violation : bool,
    (forall sink, checkRejectCall env site1 sink =
       Normal (tt, if violation then sink ++ [rejectAnError site1] else sink))
    /\ (forall sink, checkRejectCall env site2 sink =
       Normal (tt, if violation then sink ++ [rejectAnError site2] else sink)).
Proof.
  intros H1 H2 Hnil Hhd.
  destruct args1 as [|a1 r1], args2 as [|a2 r2].
  - exists (negb (allowEmptyReject env)).
    split; intros sink;
      [rewrite (checkRejectCall_empty _ _ H1)|rewrite (checkRejectCall_empty _ _ H2)];
      now destruct (allowEmptyReject env).
  - destruct Hnil as [Hn _]. now specialize (Hn eq_refl).
  - destruct Hnil as [_ Hn]. now specialize (Hn eq_refl).
  - simpl in Hhd. injection Hhd as <-.
    exists (negb (couldBeError env a1) || is_undefined_identifier a1).
    split; intros sink.
    + apply (checkRejectCall_first _ _ _ _ H1).
    + apply (checkRejectCall_first _ _ _ _ H2).
Qed.

(** *** The Call-Site Classifier *)

(** C3: [isPromiseRejectCall] holds of a node exactly when its callee is
    the member access [Promise.reject], an identifier [Promise], a dot and
    an identifier [reject]; it is a function of the node alone. *)
Theorem C3_isPromiseRejectCall_shape (node : Node) :
  isPromiseRejectCall node = true <->
  exists lm lo lp,
    node_callee node =
      Some (MemberExpression lm (Identifier lo "Promise")
              (Identifier lp "reject") false).
Proof.
  unfold isPromiseRejectCall, isSpecificMemberAccess. split.
  - destruct (node_callee node) as [[]|]; try discriminate.
    destruct object; try discriminate.
    destruct property; try discriminate.
    destruct computed; try discriminate.
    rewrite andb_true_iff, !String.eqb_eq. intros [-> ->]. eauto.
  - intros (lm & lo & lp & ->). reflexivity.
Qed.

(** *** The Callback-Reject Locator *)

Lemma readonly_is_callee_of_parent (ref : Reference) :
  readonly (is_callee_of_parent env ref).
Proof.
  unfold is_callee_of_parent.
  apply readonly_bind; [apply readonly_deref | intros p; apply readonly_ret].
Qed.

Lemma readonly_rejectCallReferences (callback param1 : Node) :
  readonly (rejectCallReferences env callback param1).
Proof.
  unfold rejectCallReferences.
  apply readonly_bind; [apply readonly_deref|]. intros variable.
  apply readonly_filterE, readonly_is_callee_of_parent.
Qed.

Lemma readonly_locateRejectCalls (node : Node) :
  readonly (locateRejectCalls env node).
Proof.
  unfold locateRejectCalls.
  apply readonly_bind; [apply readonly_deref|]. intros callee.
  destruct (_ && _); [|apply readonly_ret].
  apply readonly_bind; [apply readonly_deref|]. intros [|callback rest];
    [apply readonly_ret|].
  destruct (isFunction callback); [|apply readonly_ret].
  apply readonly_bind; [apply readonly_deref|].
  intros [|param0 [|param1 params]]; try apply readonly_ret.
  destruct (String.eqb _ _); [|apply readonly_ret].
  apply readonly_rejectCallReferences.
Qed.

(** The second [filter], once it completes, has kept the references that
    pass its test, and every reference it looked at had a parent. *)
Lemma filterE_callee_inv (l refs : list Reference) sink out :
  filterE (is_callee_of_parent env) l sink = Normal (refs, out) ->
  out = sink /\ refs = List.filter (callsParameter env) l.
Proof.
  revert refs out. induction l as [|ref l IH]; simpl; intros refs out H.
  - injection H as <- <-. now split.
  - unfold bind at 1 in H. unfold is_callee_of_parent at 1 in H.
    unfold callsParameter at 1.
    destruct (node_parent env (ref_identifier ref)) as [p|]; [|discriminate].
    simpl in H. unfold bind at 1 in H.
    destruct (filterE _ l sink) as [[rest out']|e] eqn:E; [|discriminate].
    destruct (IH _ _ eq_refl) as [-> ->].
    injection H as <- <-. now split.
Qed.

Lemma filterE_callee_linked (l : list Reference) sink :
  (forall ref, In ref l ->
     exists parent, node_parent env (ref_identifier ref) = Some parent) ->
  filterE (is_callee_of_parent env) l sink =
    Normal (List.filter (callsParameter env) l, sink).
Proof.
  induction l as [|ref l IH]; simpl; intros Hl; [reflexivity|].
  destruct (Hl ref (or_introl eq_refl)) as [p Hp].
  unfold bind at 1. unfold is_callee_of_parent at 1, callsParameter at 1.
  rewrite Hp. simpl. unfold bind at 1.
  rewrite IH by (intros r Hr; apply Hl; now right).
  reflexivity.
Qed.

(** A reference passes the test exactly when its identifier is the callee
    of the call expression that encloses it. *)
Lemma callsParameter_spec (ref : Reference) :
  callsParameter env ref = true <->
  exists l callee args,
    node_parent env (ref_identifier ref) = Some (CallExpression l callee args)
    /\ node_loc callee = node_loc (ref_identifier ref).
Proof.
  unfold callsParameter. split.
  - destruct (node_parent env (ref_identifier ref)) as [p|]; [|discriminate].
    rewrite andb_true_iff, String.eqb_eq, type_CallExpression.
    intros [(l & c & args & ->) H]. simpl in H.
    apply Nat.eqb_eq in H. eauto 6.
  - intros (l & c & args & -> & H). simpl.
    unfold same_node. now apply Nat.eqb_eq.
Qed.

Lemma rejectCallReferences_calls callback param1 refs sink out :
  rejectCallReferences env callback param1 sink = Normal (refs, out) ->
  Forall (fun ref => callsParameter env ref = true) refs.
Proof.
  unfold rejectCallReferences, bind. intros H.
  destruct (array_find _ _) as [variable|]; [|discriminate]. simpl in H.
  apply filterE_callee_inv in H as [_ ->].
  apply List.Forall_forall. intros ref Hin. now apply filter_In in Hin.
Qed.

(** What the condition of the [if] lets through. *)
Lemma locateRejectCalls_inv (node : Node) refs sink out :
  locateRejectCalls env node sink = Normal (refs, out) ->
  refs = []
  \/ exists callee callback rest param0 param1 params,
       node_callee node = Some callee
       /\ node_type callee = "Identifier" /\ node_name callee = Some "Promise"
       /\ node_arguments node = Some (callback :: rest)
       /\ isFunction callback = true
       /\ node_params callback = Some (param0 :: param1 :: params)
       /\ node_type param1 = "Identifier"
       /\ rejectCallReferences env callback param1 sink = Normal (refs, out).
Proof.
  unfold locateRejectCalls. unfold bind at 1.
  destruct (node_callee node) as [callee|]; [|discriminate]. simpl.
  destruct (_ && _) eqn:Hc; [|intros [= <- <-]; now left].
  apply andb_true_iff in Hc as [Ht Hn].
  apply String.eqb_eq in Ht. apply is_string_true in Hn.
  unfold bind at 1.
  destruct (node_arguments node) as [[|callback rest]|]; simpl;
    [intros [= <- <-]; now left| |discriminate].
  destruct (isFunction callback) eqn:Hf; [|intros [= <- <-]; now left].
  unfold bind at 1.
  destruct (node_params callback) as [[|param0 [|param1 params]]|] eqn:Hps;
    simpl; try discriminate; try (intros [= <- <-]; now left).
  destruct (String.eqb _ _) eqn:Hp; [|intros [= <- <-]; now left].
  apply String.eqb_eq in Hp. intros H. right.
  exists callee, callback, rest, param0, param1, params. auto 10.
Qed.

Lemma locateRejectCalls_calls (node : Node) refs sink out :
  locateRejectCalls env node sink = Normal (refs, out) ->
  Forall (fun ref => callsParameter env ref = true) refs.
Proof.
  intros H. apply locateRejectCalls_inv in H as [->|H]; [constructor|].
  destruct H as (? & ? & ? & ? & ? & ? & _ & _ & _ & _ & _ & _ & _ & H).
  eapply rejectCallReferences_calls, H.
Qed.

(** C4: at [new Promise(...)] whose first argument is no function, or is a
    function with fewer than two parameters, or one whose second
    parameter is not a plain identifier, the locator completes with no
    reference, and the listener completes and reports nothing. *)
Theorem C4_untrackable_callback_skipped (l lc : loc) (args : list Node)
    (sink : list Report) :
  (forall callback, head args = Some callback -> isFunction callback = false)
  \/ (exists callback params,
         head args = Some callback /\ node_params callback = Some params
         /\ length params < 2)
  \/ (exists callback params param1,
         head args = Some callback /\ node_params callback = Some params
         /\ params !! 1 = Some param1 /\ node_type param1 <> "Identifier") ->
  locateRejectCalls env (NewExpression l (Identifier lc "Promise") args) sink
    = Normal ([], sink)
  /\ NewExpression_exit_listener env
       (NewExpression l (Identifier lc "Promise") args) sink
     = Normal (tt, sink).
Proof.
  intros H.
  assert (Hloc : locateRejectCalls env
                   (NewExpression l (Identifier lc "Promise") args) sink
                 = Normal ([], sink)).
  { unfold locateRejectCalls, bind. simpl.
    destruct args as [|callback rest]; [reflexivity|].
    destruct H as [H | [(cb & params & [= <-] & Hp & Hlen)
                       | (cb & params & p1 & [= <-] & Hp & H1 & Hty)]].
    - now rewrite (H callback eq_refl).
    - destruct (isFunction callback); [|reflexivity].
      rewrite Hp. simpl.
      destruct params as [|p0 [|p1 ps]]; try reflexivity. simpl in Hlen. lia.
    - destruct (isFunction callback); [|reflexivity].
      rewrite Hp. simpl.
      destruct params as [|p0 [|p1' ps]]; try reflexivity.
      simpl in H1. injection H1 as ->.
      apply String.eqb_neq in Hty. now rewrite Hty. }
  split; [exact Hloc|].
  unfold NewExpression_exit_listener. now rewrite (bind_Normal _ _ _ _ _ Hloc).
Qed.

(** C5: once the reject variable is found and its read references are
    linked, the chain completes, and a reference is among those it keeps
    if and only if it is one of the variable's references, it reads the
    variable, and its identifier is the callee of the call expression
    that is its parent. *)
Theorem C5_reference_filter (callback param1 : Node) (variable : ScopeVariable)
    (sink : list Report) :
  array_find (fun v => is_string (node_name param1) (var_name v))
             (getDeclaredVariables env callback) = Some variable ->
  (forall ref, In ref (var_references variable) -> ref_isRead ref = true ->
     exists parent, node_parent env (ref_identifier ref) = Some parent) ->
  exists refs,
    rejectCallReferences env callback param1 sink = Normal (refs, sink)
    /\ forall ref,
         In ref refs <->
         In ref (var_references variable)
         /\ ref_isRead ref = true
         /\ exists l callee args,
              node_parent env (ref_identifier ref)
                = Some (CallExpression l callee args)
              /\ node_loc callee = node_loc (ref_identifier ref).
Proof.
  intros Hfind Hlinked.
  exists (List.filter (callsParameter env)
            (List.filter ref_isRead (var_references variable))).
  split.
  - unfold rejectCallReferences, bind. rewrite Hfind. simpl.
    apply filterE_callee_linked. intros ref Hin.
    apply filter_In in Hin as [Hin Hread]. now apply Hlinked.
  - intros ref. rewrite !filter_In, callsParameter_spec. tauto.
Qed.

(** C10: an event other than leaving [new Promise(...)], with the bare
    identifier [Promise] as callee, starts no search for reject calls: at
    a new-expression with another callee the locator yields no reference,
    and the event either reports nothing or is the entry of a call that
    [isPromiseRejectCall] accepts, where only that call is validated. *)
Theorem C10_locator_only_at_new_Promise (e : Event) (sink : list Report) :
  (forall l lc args,
      e <> Exit (NewExpression l (Identifier lc "Promise") args)) ->
  (forall l callee args,
      e = Exit (NewExpression l callee args) ->
      locateRejectCalls env (NewExpression l callee args) sink
        = Normal ([], sink))
  /\ (dispatch (create env) e sink = Normal (tt, sink)
      \/ exists node,
           e = Enter node /\ isPromiseRejectCall node = true
           /\ dispatch (create env) e sink = checkRejectCall env node sink).
Proof.
  intros Hne.
  assert (Hloc : forall l callee args,
             e = Exit (NewExpression l callee args) ->
             locateRejectCalls env (NewExpression l callee args) sink
               = Normal ([], sink)).
  { intros l callee args ->. unfold locateRejectCalls, bind. simpl.
    destruct (_ && _) eqn:Hc; [exfalso|reflexivity].
    apply andb_true_iff in Hc as [Ht Hn].
    apply String.eqb_eq, type_Identifier in Ht as (lc & s & ->).
    apply is_string_true in Hn. simpl in Hn. injection Hn as ->.
    now apply (Hne l lc args). }
  split; [exact Hloc|].
  destruct e as [node|node]; simpl.
  - destruct (String.eqb (node_type node) "CallExpression"); [|now left].
    unfold CallExpression_listener.
    destruct (isPromiseRejectCall node) eqn:Hd; [right|now left].
    exists node. auto.
  - destruct (String.eqb (node_type node) "NewExpression") eqn:Ht; [|now left].
    apply String.eqb_eq, type_NewExpression in Ht as (l & c & args & ->).
    left. unfold NewExpression_exit_listener.
    now rewrite (bind_Normal _ _ _ _ _ (Hloc l c args eq_refl)).
Qed.

(** *** No exception of the rule's own *)

(** [find] comes back with a variable for a declared identifier
    parameter. *)
Lemma find_declared_parameter (callback param1 : Node) params :
  declaresParameters env callback ->
  node_params callback = Some params ->
  In param1 params ->
  node_type param1 = "Identifier" ->
  exists variable,
    array_find (fun v => is_string (node_name param1) (var_name v))
               (getDeclaredVariables env callback) = Some variable
    /\ In variable (getDeclaredVariables env callback).
Proof.
  intros Hdecl Hps Hin Hty.
  apply type_Identifier in Hty as (l & name & ->).
  destruct (Hdecl _ _ _ Hps Hin) as (v0 & Hv0 & Hname).
  unfold array_find.
  destruct (List.find _ _) as [v|] eqn:E.
  - exists v. split; [reflexivity|]. now apply find_some in E.
  - apply (find_none _ _ E) in Hv0. simpl in Hv0.
    rewrite Hname, String.eqb_refl in Hv0. discriminate.
Qed.

(** Line 149 on references that passed the second [filter]: each parent
    is validated, and reported if it fails. *)
Lemma forEach_checkReference (refs : list Reference) sink :
  Forall (fun ref => callsParameter env ref = true) refs ->
  forEach (checkReference env) refs sink =
    Normal (tt, sink ++ map rejectAnError
                          (List.filter (siteFails env) (referenceSites env refs))).
Proof.
  intros H. revert sink. induction H as [|ref refs Href _ IH]; intros sink.
  - simpl. now rewrite app_nil_r.
  - apply callsParameter_spec in Href as (l & c & args & Hp & _).
    simpl. unfold bind at 1, checkReference at 1, referenceSites.
    simpl. rewrite Hp. unfold bind at 1. simpl.
    rewrite (checkRejectCall_verdict _ args) by reflexivity.
    rewrite IH. unfold referenceSites.
    destruct (siteFails env (CallExpression l c args)); simpl;
      now rewrite ?app_nil_r, <- ?app_assoc.
Qed.

Lemma locateRejectCalls_total (l : loc) (callee : Node) (args : list Node) sink :
  (forall callback rest, args = callback :: rest ->
     declaresParameters env callback /\ referencesLinked env callback) ->
  exists refs,
    locateRejectCalls env (NewExpression l callee args) sink = Normal (refs, sink).
Proof.
  intros Hwf. unfold locateRejectCalls, bind. simpl.
  destruct (_ && _); [|eauto].
  destruct args as [|callback rest]; [eauto|].
  destruct (Hwf _ _ eq_refl) as [Hdecl Hlinked].
  destruct (isFunction callback) eqn:Hf; [|eauto].
  destruct (node_params callback) as [[|param0 [|param1 params]]|] eqn:Hps;
    simpl; eauto; [|destruct callback; discriminate].
  destruct (String.eqb (node_type param1) "Identifier") eqn:Hty; [|eauto].
  apply String.eqb_eq in Hty.
  destruct (find_declared_parameter callback param1 _ Hdecl Hps)
    as (v & Hfind & Hv); [simpl; auto|exact Hty|].
  unfold rejectCallReferences, bind. rewrite Hfind. simpl.
  eexists. apply filterE_callee_linked. intros ref Hin.
  apply filter_In in Hin as [Hin _]. eapply Hlinked; eassumption.
Qed.

(** C9: where the scope analysis declares a variable for every identifier
    parameter of the callback, the [find] of lines 130-134 returns a
    variable, so reading its [references] cannot fault; and where moreover
    the references of the callback's variables are linked to their parents,
    as they are when the new-expression is left, the listeners complete
    without exception on every event. *)
Theorem C9_no_exception (e : Event) (sink : list Report) :
  (forall l callee callback rest,
      e = Exit (NewExpression l callee (callback :: rest)) ->
      declaresParameters env callback) ->
  (forall l callee callback rest param0 param1 params,
      e = Exit (NewExpression l callee (callback :: rest)) ->
      node_params callback = Some (param0 :: param1 :: params) ->
      node_type param1 = "Identifier" ->
      exists variable,
        array_find (fun v => is_string (node_name param1) (var_name v))
                   (getDeclaredVariables env callback) = Some variable)
  /\ ((forall l callee callback rest,
         e = Exit (NewExpression l callee (callback :: rest)) ->
         referencesLinked env callback) ->
      exists out, dispatch (create env) e sink = Normal (tt, out)).
Proof.
  intros Hdecl. split.
  - intros l callee callback rest p0 p1 ps He Hps Hty.
    destruct (find_declared_parameter callback p1 _ (Hdecl _ _ _ _ He) Hps)
      as (v & Hfind & _); [simpl; auto|exact Hty|eauto].
  - intros Hlinked. destruct e as [node|node]; simpl.
    + destruct (String.eqb (node_type node) "CallExpression") eqn:Ht;
        [|unfold ret; eauto].
      apply String.eqb_eq, type_CallExpression in Ht as (l & c & args & ->).
      unfold CallExpression_listener.
      destruct (isPromiseRejectCall _); [|unfold ret; eauto].
      rewrite (checkRejectCall_verdict _ args) by reflexivity. eauto.
    + destruct (String.eqb (node_type node) "NewExpression") eqn:Ht;
        [|unfold ret; eauto].
      apply String.eqb_eq, type_NewExpression in Ht as (l & c & args & ->).
      destruct (locateRejectCalls_total l c args sink) as [refs Hrefs].
      { intros callback rest ->. split; eauto. }
      unfold NewExpression_exit_listener.
      rewrite (bind_Normal _ _ _ _ _ Hrefs).
      rewrite forEach_checkReference by (eapply locateRejectCalls_calls, Hrefs).
      eauto.
Qed.

(** *** Every site is validated, every failing site is reported *)

Lemma dispatch_sites (e : Event) sites sink :
  eventSites env e = Normal sites ->
  dispatch (create env) e sink =
    Normal (tt, sink ++ map rejectAnError (List.filter (siteFails env) sites)).
Proof.
  destruct e as [node|node]; simpl.
  - intros [= <-].
    destruct (String.eqb (node_type node) "CallExpression") eqn:Ht; simpl;
      [|unfold ret; now rewrite app_nil_r].
    apply String.eqb_eq, type_CallExpression in Ht as (l & c & args & ->).
    unfold CallExpression_listener.
    destruct (isPromiseRejectCall _); [|unfold ret; simpl; now rewrite app_nil_r].
    rewrite (checkRejectCall_verdict _ args) by reflexivity. simpl.
    now destruct (siteFails env _).
  - destruct (String.eqb (node_type node) "NewExpression");
      [|intros [= <-]; unfold ret; simpl; now rewrite app_nil_r].
    destruct (locateRejectCalls env node []) as [[refs out]|err] eqn:E;
      [|discriminate].
    intros [= <-].
    pose proof (locateRejectCalls_calls _ _ _ _ E) as Hcalls.
    apply (readonly_result _ _ _ _ (readonly_locateRejectCalls node)) in E
      as [_ E].
    unfold NewExpression_exit_listener.
    rewrite (bind_Normal _ _ _ _ _ (E sink)).
    now apply forEach_checkReference.
Qed.

Lemma allSites_incl (events : list Event) sites e :
  allSites env events = Normal sites ->
  In e events ->
  exists sites_e, eventSites env e = Normal sites_e /\ incl sites_e sites.
Proof.
  revert sites. induction events as [|e' events IH]; simpl; intros sites H Hin;
    [easy|].
  destruct (eventSites env e') as [s1|] eqn:E1; [|discriminate].
  destruct (allSites env events) as [s2|] eqn:E2; [|discriminate].
  injection H as <-. destruct Hin as [->|Hin].
  - exists s1. split; [exact E1|]. now apply incl_appl.
  - destruct (IH _ eq_refl Hin) as (s & Hs & Hincl).
    exists s. split; [exact Hs|]. now apply incl_appr.
Qed.

Lemma referenceSites_length (refs : list Reference) :
  Forall (fun ref => callsParameter env ref = true) refs ->
  length (referenceSites env refs) = length refs.
Proof.
  induction 1 as [|ref refs Href _ IH]; [reflexivity|].
  apply callsParameter_spec in Href as (l & c & args & Hp & _).
  unfold referenceSites in *. simpl. rewrite Hp. simpl. now f_equal.
Qed.

(** C6: where the search for rejection sites completes over the events of
    a run, the run completes too and adds to the sink one diagnostic for
    each failing site, in the order of the sites and with none left out,
    so the diagnostics are as many as the failing sites; and the calls
    found through one reject parameter are one site for each reference
    the filters keep, all of them among the sites of the run. *)
Theorem C6_every_failing_site_reported (events : list Event)
    (sites : list Node) (sink : list Report) :
  allSites env events = Normal sites ->
  run env events sink =
    Normal (tt, sink ++ map rejectAnError (List.filter (siteFails env) sites))
  /\ length (diagnostics (run env events))
     = length (List.filter (siteFails env) sites)
  /\ (forall node refs,
        In (Exit node) events ->
        node_type node = "NewExpression" ->
        locateRejectCalls env node [] = Normal (refs, []) ->
        length (referenceSites env refs) = length refs
        /\ incl (referenceSites env refs) sites).
Proof.
  intros Hsites.
  assert (Hrun : forall sink',
             run env events sink' =
               Normal (tt, sink' ++ map rejectAnError
                                      (List.filter (siteFails env) sites))).
  { revert sites Hsites.
    induction events as [|e events' IH]; simpl; intros sites Hsites sink'.
    - injection Hsites as <-. unfold run. simpl. now rewrite app_nil_r.
    - destruct (eventSites env e) as [s1|] eqn:E1; [|discriminate].
      destruct (allSites env events') as [s2|] eqn:E2; [|discriminate].
      injection Hsites as <-. unfold run in *. simpl.
      rewrite (bind_Normal _ _ _ _ _ (dispatch_sites e s1 sink' E1)).
      rewrite (IH _ eq_refl).
      now rewrite List.filter_app, List.map_app, app_assoc. }
  split; [apply Hrun|]. split.
  - unfold diagnostics. rewrite Hrun. simpl. now rewrite List.length_map.
  - intros node refs Hin Hty Hloc. split.
    + eapply referenceSites_length, locateRejectCalls_calls, Hloc.
    + destruct (allSites_incl _ _ _ Hsites Hin) as (s & Hs & Hincl).
      simpl in Hs. apply String.eqb_eq in Hty. rewrite Hty, Hloc in Hs.
      now injection Hs as <-.
Qed.

(** *** Determinism *)

Lemma appends_dispatch (e : Event) : appends (dispatch (create env) e).
Proof.
  destruct e as [node|node]; simpl.
  - destruct (String.eqb _ _); [|apply appends_readonly, readonly_ret].
    unfold CallExpression_listener.
    destruct (isPromiseRejectCall node);
      [apply appends_checkRejectCall | apply appends_readonly, readonly_ret].
  - destruct (String.eqb _ _); [|apply appends_readonly, readonly_ret].
    unfold NewExpression_exit_listener.
    apply appends_bind; [apply appends_readonly, readonly_locateRejectCalls|].
    intros refs. apply appends_forEach. intros ref. unfold checkReference.
    apply appends_bind; [apply appends_readonly, readonly_deref|].
    intros parent. apply appends_checkRejectCall.
Qed.

(** C8: two runs over the same events, with the same scope analysis,
    [couldBeError] and configuration, end the same way whatever the sink
    held before each: either both complete, having added the same
    diagnostics in the same order, or both stop with the same
    exception. *)
Theorem C8_run_deterministic (events : list Event) (sink1 sink2 : list Report) :
  match run env events sink1, run env events sink2 with
  | Normal (_, out1), Normal (_, out2) =>
      exists added, out1 = sink1 ++ added /\ out2 = sink2 ++ added
  | Throw e1, Throw e2 => e1 = e2
  | _, _ => False
  end.
Proof.
  destruct (appends_forEach (dispatch (create env)) events appends_dispatch)
    as [r Hr].
  unfold run. rewrite !Hr. destruct r as [[[] added]|err]; eauto.
Qed.

End Properties.

(** * The rule on concrete programs *)

(** ** The examples of the specification *)

Example Promise_reject_empty :
  lint false [] (promiseReject [])
  = Normal (tt, [rejectAnError (promiseReject [])]).
Proof. vm_compute. reflexivity. Qed.

Example Promise_reject_empty_allowed :
  lint true [] (promiseReject []) = Normal (tt, []).
Proof. vm_compute. reflexivity. Qed.

Example Promise_reject_literal :
  lint false [] (promiseReject [Literal 5 "5"])
  = Normal (tt, [rejectAnError (promiseReject [Literal 5 "5"])]).
Proof. vm_compute. reflexivity. Qed.

Example Promise_reject_new_Error :
  lint false []
    (promiseReject [NewExpression 5 (Identifier 6 "Error") [Literal 7 "'x'"]])
  = Normal (tt, []).
Proof. vm_compute. reflexivity. Qed.

Example Promise_reject_undefined :
  exampleCouldBeError (Identifier 5 "undefined") = true
  /\ lint false [] (promiseReject [Identifier 5 "undefined"])
     = Normal (tt, [rejectAnError (promiseReject [Identifier 5 "undefined"])]).
Proof. split; vm_compute; reflexivity. Qed.

Example new_Promise_reject_bad :
  lint false [Identifier 21 "reject"] (newPromise rejectParam rejectBad)
  = Normal (tt, [rejectAnError rejectBad]).
Proof. vm_compute. reflexivity. Qed.

Example new_Promise_resolve_reject :
  lint false [Identifier 22 "reject"] (newPromise rejectParam resolveReject)
  = Normal (tt, []).
Proof. vm_compute. reflexivity. Qed.

Example new_Promise_destructured :
  lint false [Identifier 21 "reject"]
    (newPromise (ObjectPattern 14 [Identifier 18 "reject"]) rejectBad)
  = Normal (tt, []).
Proof. vm_compute. reflexivity. Qed.

Example new_Promise_three_rejects :
  lint false threeRejectReads (newPromise rejectParam threeRejects)
  = Normal (tt, [rejectAnError (CallExpression 20 (Identifier 21 "reject")
                                  [Literal 22 "5"]);
                 rejectAnError (CallExpression 28 (Identifier 29 "reject") [])]).
Proof. vm_compute. reflexivity. Qed.

Example new_window_Promise :
  lint false [Identifier 21 "reject"] newWindowPromise = Normal (tt, []).
Proof. vm_compute. reflexivity. Qed.

Example Promise_without_new :
  lint false [Identifier 21 "reject"] callPromise = Normal (tt, []).
Proof. vm_compute. reflexivity. Qed.

(** Without the declaration of the parameter the lookup comes back
    [undefined] and the listener throws. *)
Example new_Promise_undeclared_parameter :
  run {| allowEmptyReject := false;
         getDeclaredVariables := fun _ => [];
         couldBeError := exampleCouldBeError;
         parents := link (newPromise rejectParam rejectBad) |}
      (traverse (newPromise rejectParam rejectBad)) []
  = Throw (TypeError "find(...).references").
Proof. vm_compute. reflexivity. Qed.

(** ** The theorems at concrete inputs *)

Lemma C1_witness :
  let env := exampleEnv false [] (promiseReject []) in
  let site := promiseReject [Identifier 5 "undefined"; Literal 6 "1"] in
  node_arguments site = Some [Identifier 5 "undefined"; Literal 6 "1"]
  /\ checkRejectCall env site [] = Normal (tt, [] ++ [rejectAnError site]).
Proof.
  intros env site. split; [reflexivity|].
  apply (C1_first_argument_violation env site (Identifier 5 "undefined")
           [Literal 6 "1"] [] eq_refl).
  now exists 5.
Defined.

Lemma C2_witness :
  let env := exampleEnv true [] (promiseReject []) in
  node_arguments (promiseReject []) = Some []
  /\ checkRejectCall env (promiseReject []) [] = Normal (tt, []).
Proof.
  intros env. split; [reflexivity|].
  now apply (C2_empty_reject_violation env (promiseReject []) [] eq_refl).
Defined.

Lemma C7_witness :
  let env := exampleEnv false [] (promiseReject []) in
  let site1 := promiseReject [Literal 5 "5"] in
  let site2 := promiseReject [Literal 5 "5"; NewExpression 6 (Identifier 7 "Error") []] in
  exists violation : bool,
    (forall sink, checkRejectCall env site1 sink =
       Normal (tt, if violation then sink ++ [rejectAnError site1] else sink))
    /\ (forall sink, checkRejectCall env site2 sink =
       Normal (tt, if violation then sink ++ [rejectAnError site2] else sink)).
Proof.
  intros env site1 site2.
  apply (C7_later_arguments_ignored env site1 site2 [Literal 5 "5"]
           [Literal 5 "5"; NewExpression 6 (Identifier 7 "Error") []]);
    [reflexivity | reflexivity | split; discriminate | reflexivity].
Defined.

Lemma C4_witness :
  let param1 := ObjectPattern 14 [Identifier 18 "reject"] in
  let program := newPromise param1 rejectBad in
  let env := exampleEnv false [Identifier 21 "reject"] program in
  node_params (exampleCallback param1 rejectBad)
    = Some [Identifier 13 "resolve"; param1]
  /\ node_type param1 <> "Identifier"
  /\ locateRejectCalls env program [] = Normal ([], [])
  /\ NewExpression_exit_listener env program [] = Normal (tt, []).
Proof.
  intros param1 program env. split; [reflexivity|]. split; [discriminate|].
  apply (C4_untrackable_callback_skipped env 10 11
           [exampleCallback (ObjectPattern 14 [Identifier 18 "reject"]) rejectBad] []).
  right; right.
  exists (exampleCallback (ObjectPattern 14 [Identifier 18 "reject"]) rejectBad),
    [Identifier 13 "resolve"; ObjectPattern 14 [Identifier 18 "reject"]],
    (ObjectPattern 14 [Identifier 18 "reject"]).
  repeat split; discriminate.
Defined.

Lemma C5_witness :
  let program := newPromise rejectParam resolveReject in
  let reads := [Identifier 22 "reject"] in
  let env := exampleEnv false reads program in
  let callback := exampleCallback rejectParam resolveReject in
  let variable :=
    {| var_name := "reject";
       var_references := [ {| ref_identifier := Identifier 22 "reject";
                              ref_isRead := true |} ] |} in
  array_find (fun v => is_string (node_name rejectParam) (var_name v))
             (getDeclaredVariables env callback) = Some variable
  /\ node_parent env (Identifier 22 "reject") = Some resolveReject
  /\ rejectCallReferences env callback rejectParam [] = Normal ([], []).
Proof.
  intros program reads env callback variable.
  split; [reflexivity|]. split; [vm_compute; reflexivity|].
  destruct (C5_reference_filter env callback rejectParam variable [] eq_refl)
    as (refs & Hrun & Hiff).
  - intros ref [<-|[]] _. eexists. vm_compute. reflexivity.
  - rewrite Hrun. destruct refs as [|ref refs]; [reflexivity|exfalso].
    destruct (proj1 (Hiff ref) (or_introl eq_refl))
      as ([<-|[]] & _ & l & callee & args & Hp & Hid).
    vm_compute in Hp. injection Hp as <- <- <-. discriminate Hid.
Defined.

Lemma C10_witness :
  let env := exampleEnv false [Identifier 21 "reject"] newWindowPromise in
  (forall l lc args,
      Exit newWindowPromise <> Exit (NewExpression l (Identifier lc "Promise") args))
  /\ locateRejectCalls env newWindowPromise [] = Normal ([], []).
Proof.
  intros env. split; [discriminate|].
  apply (C10_locator_only_at_new_Promise env (Exit newWindowPromise) []);
    [discriminate | reflexivity].
Defined.

Lemma C9_witness :
  let program := newPromise rejectParam threeRejects in
  let env := exampleEnv false threeRejectReads program in
  let callback := exampleCallback rejectParam threeRejects in
  declaresParameters env callback
  /\ referencesLinked env callback
  /\ exists out, dispatch (create env) (Exit program) [] = Normal (tt, out).
Proof.
  intros program env callback.
  assert (Hdecl : declaresParameters env callback).
  { intros params l name [= <-] [[= <- <-]|[[= <- <-]|[]]]; eexists.
    - split; [left; reflexivity | reflexivity].
    - split; [right; left; reflexivity | reflexivity]. }
  assert (Hlinked : referencesLinked env callback).
  { intros variable ref [<-|[<-|[]]]; [intros []|].
    intros [<-|[<-|[<-|[]]]]; eexists; vm_compute; reflexivity. }
  split; [exact Hdecl|]. split; [exact Hlinked|].
  apply (C9_no_exception env (Exit program) []).
  - intros l callee cb rest [= _ _ <- _]. exact Hdecl.
  - intros l callee cb rest [= _ _ <- _]. exact Hlinked.
Defined.

Lemma C6_witness :
  let program := newPromise rejectParam threeRejects in
  let env := exampleEnv false threeRejectReads program in
  let sites :=
    [CallExpression 20 (Identifier 21 "reject") [Literal 22 "5"];
     CallExpression 23 (Identifier 24 "reject")
       [NewExpression 25 (Identifier 26 "Error") [Identifier 27 "m"]];
     CallExpression 28 (Identifier 29 "reject") []] in
  allSites env (traverse program) = Normal sites
  /\ run env (traverse program) []
     = Normal (tt, [] ++ map rejectAnError (List.filter (siteFails env) sites))
  /\ length (diagnostics (run env (traverse program))) = 2.
Proof.
  intros program env sites.
  assert (Hsites : allSites env (traverse program) = Normal sites)
    by (vm_compute; reflexivity).
  split; [exact Hsites|].
  destruct (C6_every_failing_site_reported env (traverse program) sites [] Hsites)
    as (Hrun & Hlen & _).
  split; [exact Hrun|]. rewrite Hlen. reflexivity.
Defined.

(** * Further properties of the rule *)

Lemma forEach_app {A} (f : A -> Eff unit) (l1 l2 : list A) sink :
  forEach f (l1 ++ l2) sink
  = bind (forEach f l1) (fun _ => forEach f l2) sink.
Proof.
  revert sink. induction l1 as [|x l1 IH]; intros sink; simpl; [reflexivity|].
  unfold bind.
  destruct (f x sink) as [[[] sink']|e]; [|reflexivity].
  rewrite IH. reflexivity.
Qed.

Lemma find_first {A} (p : A -> bool) (before after : list A) (x : A) :
  (forall y, In y before -> p y = false) -> p x = true ->
  List.find p (before ++ x :: after) = Some x.
Proof.
  intros Hb Hx. induction before as [|y before IH]; simpl.
  - now rewrite Hx.
  - rewrite (Hb y (or_introl eq_refl)). apply IH.
    intros z Hz. apply Hb. now right.
Qed.

Lemma find_nothing {A} (p : A -> bool) (l : list A) :
  (forall y, In y l -> p y = false) -> List.find p l = None.
Proof.
  induction l as [|y l IH]; simpl; intros H; [reflexivity|].
  rewrite (H y (or_introl eq_refl)). apply IH. intros z Hz. apply H. now right.
Qed.

Section Coverage.

Variable env : Env.

(** ** Which variable the locator follows, and when it throws *)

(** X1: [find] takes the first declared variable that bears the name of the
    second parameter: the references the locator goes through are that
    variable's, whatever is declared after it, a later variable of the same
    name included. *)
Theorem first_declared_variable_wins (callback param1 : Node)
    (before after : list ScopeVariable) (v : ScopeVariable) (sink : list Report) :
  getDeclaredVariables env callback = before ++ v :: after ->
  node_name param1 = Some (var_name v) ->
  (forall v', In v' before -> var_name v' <> var_name v) ->
  rejectCallReferences env callback param1 sink
  = filterE (is_callee_of_parent env)
      (List.filter ref_isRead (var_references v)) sink.
Proof.
  intros Hdecl Hname Hbefore.
  unfold rejectCallReferences, array_find. rewrite Hdecl, Hname.
  rewrite find_first; [reflexivity| |].
  - intros v' Hin. simpl. apply String.eqb_neq. intros E.
    now apply (Hbefore v' Hin).
  - simpl. apply String.eqb_refl.
Qed.

(** X2: at [new Promise(callback)] with a callback that passes the tests of
    lines 110-116, where no declared variable bears the name of the second
    parameter, [find] returns [undefined] and the listener throws on
    reading [references]. *)
Theorem undeclared_parameter_throws (l lc : loc) (callback : Node)
    (rest : list Node) (param0 param1 : Node) (params : list Node)
    (sink : list Report) :
  isFunction callback = true ->
  node_params callback = Some (param0 :: param1 :: params) ->
  node_type param1 = "Identifier" ->
  (forall v, In v (getDeclaredVariables env callback) ->
             node_name param1 <> Some (var_name v)) ->
  NewExpression_exit_listener env
    (NewExpression l (Identifier lc "Promise") (callback :: rest)) sink
  = Throw (TypeError "find(...).references").
Proof.
  intros Hf Hps Hty Hnone.
  unfold NewExpression_exit_listener, locateRejectCalls, bind. simpl.
  rewrite Hf, Hps. simpl.
  apply String.eqb_eq in Hty. rewrite Hty.
  unfold rejectCallReferences, bind, array_find.
  rewrite find_nothing; [reflexivity|].
  intros v Hin. destruct (is_string _ _) eqn:E; [|reflexivity].
  apply is_string_true in E. now apply Hnone in Hin.
Qed.

Lemma filterE_unlinked (refs : list Reference) (ref : Reference) sink :
  In ref refs ->
  node_parent env (ref_identifier ref) = None ->
  filterE (is_callee_of_parent env) refs sink
  = Throw (TypeError "ref.identifier.parent").
Proof.
  intros Hin Hnone. induction refs as [|r refs IH]; [easy|].
  simpl. unfold bind at 1. unfold is_callee_of_parent at 1.
  destruct Hin as [->|Hin].
  - now rewrite Hnone.
  - destruct (node_parent env (ref_identifier r)); [|reflexivity].
    simpl. unfold bind at 1. now rewrite (IH Hin).
Qed.

(** X3: where a reference that reads the found variable has an identifier
    without [parent], the second [filter] throws on reading [parent.type];
    no reference reaches [checkRejectCall]. *)
Theorem unlinked_reference_throws (callback param1 : Node) (v : ScopeVariable)
    (ref : Reference) (sink : list Report) :
  array_find (fun v => is_string (node_name param1) (var_name v))
             (getDeclaredVariables env callback) = Some v ->
  In ref (var_references v) ->
  ref_isRead ref = true ->
  node_parent env (ref_identifier ref) = None ->
  rejectCallReferences env callback param1 sink
  = Throw (TypeError "ref.identifier.parent").
Proof.
  intros Hfind Hin Hread Hnone.
  unfold rejectCallReferences, bind. rewrite Hfind. simpl.
  apply (filterE_unlinked _ ref); [|exact Hnone].
  apply filter_In. now split.
Qed.

(** ** What a run reports *)

Lemma run_sites (events : list Event) (sites : list Node) :
  allSites env events = Normal sites ->
  forall sink,
    run env events sink
    = Normal (tt, sink ++ map rejectAnError (List.filter (siteFails env) sites)).
Proof.
  revert sites. induction events as [|e events IH]; simpl; intros sites H sink.
  - injection H as <-. unfold run. simpl. now rewrite app_nil_r.
  - destruct (eventSites env e) as [s1|] eqn:E1; [|discriminate].
    destruct (allSites env events) as [s2|] eqn:E2; [|discriminate].
    injection H as <-. unfold run in *. simpl.
    rewrite (bind_Normal _ _ _ _ _ (dispatch_sites env e s1 sink E1)).
    rewrite (IH _ eq_refl).
    now rewrite List.filter_app, List.map_app, app_assoc.
Qed.

Lemma dispatch_Normal_sites (e : Event) sink r :
  dispatch (create env) e sink = Normal r ->
  exists sites, eventSites env e = Normal sites.
Proof.
  destruct e as [node|node]; simpl; [eauto|].
  destruct (String.eqb _ _); [|eauto].
  unfold NewExpression_exit_listener, bind.
  destruct (locateRejectCalls env node sink) as [[refs out]|err] eqn:E;
    [|discriminate].
  intros _.
  apply (readonly_result _ _ _ _ (readonly_locateRejectCalls env node)) in E
    as [_ E].
  rewrite (E []). eauto.
Qed.

Lemma run_Normal_sites (events : list Event) sink r :
  run env events sink = Normal r ->
  exists sites, allSites env events = Normal sites.
Proof.
  unfold run. revert sink.
  induction events as [|e events IH]; simpl; intros sink H; [eauto|].
  unfold bind in H.
  destruct (dispatch (create env) e sink) as [[[] sink']|err] eqn:E;
    [|discriminate].
  destruct (dispatch_Normal_sites _ _ _ E) as [s1 ->].
  destruct (IH _ H) as [s2 ->]. eauto.
Qed.

Lemma eventSites_calls (e : Event) (sites : list Node) :
  eventSites env e = Normal sites ->
  Forall (fun s => exists l c args, s = CallExpression l c args) sites.
Proof.
  destruct e as [node|node]; simpl.
  - intros [= <-].
    destruct (String.eqb (node_type node) "CallExpression") eqn:Ht; simpl;
      [|constructor].
    destruct (isPromiseRejectCall node); constructor; [|constructor].
    now apply String.eqb_eq, type_CallExpression in Ht.
  - destruct (String.eqb _ _); [|intros [= <-]; constructor].
    destruct (locateRejectCalls env node []) as [[refs out]|err] eqn:E;
      [|discriminate].
    intros [= <-]. apply locateRejectCalls_calls in E.
    induction E as [|ref refs Href _ IH]; [constructor|].
    apply callsParameter_spec in Href as (l & c & args & Hp & _).
    unfold referenceSites in *. simpl. rewrite Hp. simpl.
    constructor; eauto.
Qed.

Lemma allSites_calls (events : list Event) (sites : list Node) :
  allSites env events = Normal sites ->
  Forall (fun s => exists l c args, s = CallExpression l c args) sites.
Proof.
  revert sites. induction events as [|e events IH]; simpl; intros sites H.
  - injection H as <-. constructor.
  - destruct (eventSites env e) as [s1|] eqn:E1; [|discriminate].
    destruct (allSites env events) as [s2|] eqn:E2; [|discriminate].
    injection H as <-. apply List.Forall_app. split.
    + now apply eventSites_calls with e.
    + now apply IH.
Qed.

(** X4: a run that completes leaves the diagnostics it found in place and
    adds after them only diagnostics with the message [rejectAnError],
    each at a call expression that the validator fails. *)
Theorem reports_are_failing_calls (events : list Event) (sink out : list Report) :
  run env events sink = Normal (tt, out) ->
  exists added,
    out = sink ++ added
    /\ Forall (fun d =>
                 report_messageId d = "rejectAnError"
                 /\ (exists l c args, report_node d = CallExpression l c args)
                 /\ siteFails env (report_node d) = true) added.
Proof.
  intros H. destruct (run_Normal_sites _ _ _ H) as [sites Hsites].
  rewrite (run_sites _ _ Hsites) in H. injection H as <-.
  eexists. split; [reflexivity|].
  apply List.Forall_forall. intros d Hd.
  apply in_map_iff in Hd as (s & <- & Hs).
  apply filter_In in Hs as [Hs Hfail].
  pose proof (allSites_calls _ _ Hsites) as Hcalls.
  rewrite List.Forall_forall in Hcalls. simpl. auto using Hcalls.
Qed.

(** X7: a run over two event sequences one after the other adds what a run
    over the first adds, then what a run over the second adds, whatever the
    sink holds. *)
Theorem run_concatenation (events1 events2 : list Event)
    (added1 added2 sink : list Report) :
  run env events1 [] = Normal (tt, added1) ->
  run env events2 [] = Normal (tt, added2) ->
  run env (events1 ++ events2) sink = Normal (tt, sink ++ added1 ++ added2).
Proof.
  intros H1 H2. unfold run in *. rewrite forEach_app. unfold bind.
  destruct (appends_forEach _ events1 (appends_dispatch env)) as [r1 Hr1].
  destruct (appends_forEach _ events2 (appends_dispatch env)) as [r2 Hr2].
  rewrite Hr1 in H1. rewrite Hr2 in H2. rewrite Hr1.
  destruct r1 as [[[] a1]|]; [|discriminate]. injection H1 as ->.
  rewrite Hr2.
  destruct r2 as [[[] a2]|]; [|discriminate]. injection H2 as ->.
  now rewrite app_assoc.
Qed.

End Coverage.

(** ** How the option and [couldBeError] bear on the diagnostics *)

Lemma siteFails_call (env : Env) (l : loc) (c : Node) (args : list Node) :
  siteFails env (CallExpression l c args)
  = match args with
    | [] => negb (allowEmptyReject env)
    | arg0 :: _ => negb (couldBeError env arg0) || is_undefined_identifier arg0
    end.
Proof.
  unfold siteFails, diagnostics. destruct args as [|arg0 rest].
  - rewrite (checkRejectCall_empty env (CallExpression l c []) [] eq_refl).
    now destruct (allowEmptyReject env).
  - rewrite (checkRejectCall_first env (CallExpression l c (arg0 :: rest)) arg0 rest []
               eq_refl).
    now destruct (negb (couldBeError env arg0) || is_undefined_identifier arg0).
Qed.

Lemma locateRejectCalls_sameTree (env1 env2 : Env) (node : Node) :
  sameTree env1 env2 ->
  locateRejectCalls env1 node = locateRejectCalls env2 node.
Proof.
  intros [Hvars Hparents].
  unfold locateRejectCalls, rejectCallReferences, is_callee_of_parent, node_parent.
  now rewrite Hvars, Hparents.
Qed.

Lemma allSites_sameTree (env1 env2 : Env) (events : list Event) :
  sameTree env1 env2 ->
  allSites env1 events = allSites env2 events.
Proof.
  intros Hsame. induction events as [|e events IH]; simpl; [reflexivity|].
  rewrite IH. destruct e as [node|node]; simpl; [reflexivity|].
  rewrite (locateRejectCalls_sameTree _ _ node Hsame).
  unfold referenceSites, node_parent. destruct Hsame as [_ ->]. reflexivity.
Qed.

(** X5: switching [allowEmptyReject] on, all else equal, removes from the
    diagnostics of a run exactly those at calls without argument; the
    others stay, in their order. *)
Theorem allowEmptyReject_drops_only_empty_calls (env1 env2 : Env)
    (events : list Event) (sink added : list Report) :
  sameTree env1 env2 ->
  (forall n, couldBeError env1 n = couldBeError env2 n) ->
  allowEmptyReject env1 = false ->
  allowEmptyReject env2 = true ->
  run env1 events sink = Normal (tt, sink ++ added) ->
  run env2 events sink = Normal (tt, sink ++ List.filter hasArgument added).
Proof.
  intros Hsame Hcbe Hoff Hon Hrun.
  destruct (run_Normal_sites _ _ _ _ Hrun) as [sites Hsites].
  rewrite (run_sites _ _ _ Hsites) in Hrun.
  injection Hrun as Hadded. apply app_inv_head in Hadded. subst added.
  rewrite (allSites_sameTree _ _ _ Hsame) in Hsites.
  rewrite (run_sites _ _ _ Hsites).
  apply (f_equal (fun added => Normal (tt, sink ++ added))).
  pose proof (allSites_calls _ _ _ Hsites) as Hcalls. clear Hsites.
  induction Hcalls as [|s sites (l & c & args & ->) _ IH]; [reflexivity|].
  simpl. rewrite !siteFails_call, Hoff, Hon.
  destruct args as [|arg0 rest]; simpl; [exact IH|].
  rewrite Hcbe.
  destruct (negb (couldBeError env2 arg0) || is_undefined_identifier arg0);
    simpl; now rewrite IH.
Qed.

(** X6: with a [couldBeError] that accepts at least what another accepts,
    all else equal, a run completes as the other does and its diagnostics
    are a subsequence of the other's. *)
Theorem tolerant_couldBeError_reports_less (env1 env2 : Env)
    (events : list Event) (sink added1 : list Report) :
  sameTree env1 env2 ->
  allowEmptyReject env1 = allowEmptyReject env2 ->
  (forall n, couldBeError env1 n = true -> couldBeError env2 n = true) ->
  run env1 events sink = Normal (tt, sink ++ added1) ->
  exists added2,
    run env2 events sink = Normal (tt, sink ++ added2)
    /\ sublist added2 added1.
Proof.
  intros Hsame Hopt Hcbe Hrun.
  destruct (run_Normal_sites _ _ _ _ Hrun) as [sites Hsites].
  rewrite (run_sites _ _ _ Hsites) in Hrun.
  injection Hrun as Hadded. apply app_inv_head in Hadded. subst added1.
  rewrite (allSites_sameTree _ _ _ Hsame) in Hsites.
  eexists. split; [apply (run_sites _ _ _ Hsites)|].
  pose proof (allSites_calls _ _ _ Hsites) as Hcalls. clear Hsites.
  induction Hcalls as [|s sites (l & c & args & ->) _ IH]; [constructor|].
  simpl. rewrite !siteFails_call, Hopt.
  destruct args as [|arg0 rest].
  - destruct (negb (allowEmptyReject env2)); simpl;
      [now apply sublist_skip|exact IH].
  - specialize (Hcbe arg0).
    destruct (couldBeError env1 arg0), (couldBeError env2 arg0),
      (is_undefined_identifier arg0); simpl;
      try (now apply sublist_skip); try exact IH;
      try (now apply sublist_cons); now discriminate Hcbe.
Qed.

(** ** The only two faults *)

Lemma filterE_Throw (env : Env) (refs : list Reference) sink err :
  filterE (is_callee_of_parent env) refs sink = Throw err ->
  err = TypeError "ref.identifier.parent".
Proof.
  induction refs as [|r refs IH]; simpl; [discriminate|].
  unfold bind at 1. unfold is_callee_of_parent at 1.
  destruct (node_parent env (ref_identifier r)); simpl; [|now intros [= <-]].
  unfold bind at 1.
  destruct (filterE _ refs sink) as [[rest out]|err'] eqn:E; [discriminate|].
  intros [= <-]. now apply IH.
Qed.

Lemma dispatch_Throw (env : Env) (e : Event) sink err :
  dispatch (create env) e sink = Throw err ->
  err = TypeError "find(...).references"
  \/ err = TypeError "ref.identifier.parent".
Proof.
  destruct e as [node|node]; simpl.
  - destruct (String.eqb (node_type node) "CallExpression") eqn:Ht;
      [|discriminate].
    apply String.eqb_eq, type_CallExpression in Ht as (l & c & args & ->).
    unfold CallExpression_listener.
    destruct (isPromiseRejectCall _); [|discriminate].
    now rewrite (checkRejectCall_verdict env (CallExpression l c args) args sink
                   eq_refl).
  - destruct (String.eqb (node_type node) "NewExpression") eqn:Ht;
      [|discriminate].
    apply String.eqb_eq, type_NewExpression in Ht as (l & c & args & ->).
    unfold NewExpression_exit_listener, bind.
    destruct (locateRejectCalls env _ sink) as [[refs out]|err'] eqn:E.
    + rewrite forEach_checkReference by (eapply locateRejectCalls_calls, E).
      discriminate.
    + intros [= <-]. revert E. unfold locateRejectCalls, bind. simpl.
      destruct (_ && _); [|discriminate].
      destruct args as [|callback rest]; [discriminate|].
      destruct (isFunction callback) eqn:Hf; [|discriminate].
      destruct (node_params callback) as [[|p0 [|p1 ps]]|] eqn:Hps; simpl;
        try discriminate; [|destruct callback; discriminate].
      destruct (String.eqb _ _); [|discriminate].
      unfold rejectCallReferences, bind.
      destruct (array_find _ _); simpl; [|intros [= <-]; now left].
      intros E. right. eapply filterE_Throw, E.
Qed.

(** X8: a run stops with an exception only on the two reads that the
    condition of lines 110-116 does not cover, [references] of a variable
    that [find] did not find and [type] of a missing [parent]; reading
    [callee], [arguments], [params] and [arguments[0]] never throws. *)
Theorem run_throws_only_at_find_or_parent (env : Env) (events : list Event)
    (sink : list Report) (err : JSError) :
  run env events sink = Throw err ->
  err = TypeError "find(...).references"
  \/ err = TypeError "ref.identifier.parent".
Proof.
  unfold run. revert sink.
  induction events as [|e events IH]; simpl; intros sink; [discriminate|].
  unfold bind.
  destruct (dispatch (create env) e sink) as [[[] sink']|err'] eqn:E.
  - apply IH.
  - intros [= <-]. eapply dispatch_Throw, E.
Qed.

(** ** The further properties at concrete inputs *)

Lemma first_declared_variable_wins_witness :
  let program := newPromise rejectParam rejectBad in
  let callback := exampleCallback rejectParam rejectBad in
  let reads := [Identifier 21 "reject"] in
  let env := {| allowEmptyReject := false;
                getDeclaredVariables := shadowingScope reads;
                couldBeError := exampleCouldBeError;
                parents := link program |} in
  let shadow := {| var_name := "reject"; var_references := [] |} in
  getDeclaredVariables env callback
    = [] ++ shadow :: exampleScope reads callback
  /\ callsParameter env {| ref_identifier := Identifier 21 "reject";
                           ref_isRead := true |} = true
  /\ rejectCallReferences env callback rejectParam [] = Normal ([], []).
Proof.
  intros program callback reads env shadow.
  split; [reflexivity|]. split; [vm_compute; reflexivity|].
  now rewrite (first_declared_variable_wins env callback rejectParam []
                 (exampleScope reads callback) shadow [] eq_refl eq_refl).
Defined.

Lemma undeclared_parameter_throws_witness :
  let env := {| allowEmptyReject := false;
                getDeclaredVariables := fun _ => [];
                couldBeError := exampleCouldBeError;
                parents := link (newPromise rejectParam rejectBad) |} in
  node_params (exampleCallback rejectParam rejectBad)
    = Some [Identifier 13 "resolve"; rejectParam]
  /\ NewExpression_exit_listener env (newPromise rejectParam rejectBad) []
     = Throw (TypeError "find(...).references").
Proof.
  intros env. split; [reflexivity|].
  apply (undeclared_parameter_throws env 10 11
           (exampleCallback rejectParam rejectBad) []
           (Identifier 13 "resolve") rejectParam []);
    [reflexivity | reflexivity | reflexivity | intros v []].
Defined.

Lemma unlinked_reference_throws_witness :
  let callback := exampleCallback rejectParam rejectBad in
  let env := {| allowEmptyReject := false;
                getDeclaredVariables := exampleScope [Identifier 21 "reject"];
                couldBeError := exampleCouldBeError;
                parents := ∅ |} in
  let ref := {| ref_identifier := Identifier 21 "reject"; ref_isRead := true |} in
  node_parent env (ref_identifier ref) = None
  /\ rejectCallReferences env callback rejectParam []
     = Throw (TypeError "ref.identifier.parent").
Proof.
  intros callback env ref. split; [reflexivity|].
  apply (unlinked_reference_throws env callback rejectParam
           {| var_name := "reject"; var_references := [ref] |} ref []);
    [reflexivity | now left | reflexivity | reflexivity].
Defined.

Lemma reports_are_failing_calls_witness :
  let program := newPromise rejectParam threeRejects in
  let env := exampleEnv false threeRejectReads program in
  let out :=
    [rejectAnError (CallExpression 20 (Identifier 21 "reject") [Literal 22 "5"]);
     rejectAnError (CallExpression 28 (Identifier 29 "reject") [])] in
  run env (traverse program) [] = Normal (tt, out)
  /\ exists added,
       out = [] ++ added
       /\ Forall (fun d =>
                    report_messageId d = "rejectAnError"
                    /\ (exists l c args, report_node d = CallExpression l c args)
                    /\ siteFails env (report_node d) = true) added.
Proof.
  intros program env out.
  assert (H : run env (traverse program) [] = Normal (tt, out))
    by (vm_compute; reflexivity).
  split; [exact H|].
  exact (reports_are_failing_calls env (traverse program) [] out H).
Defined.

Lemma run_concatenation_witness :
  let env := exampleEnv false [] (promiseReject []) in
  let site1 := promiseReject [] in
  let site2 := promiseReject [Literal 5 "5"] in
  run env (traverse site1) [] = Normal (tt, [rejectAnError site1])
  /\ run env (traverse site2) [] = Normal (tt, [rejectAnError site2])
  /\ run env (traverse site1 ++ traverse site2) []
     = Normal (tt, [] ++ [rejectAnError site1] ++ [rejectAnError site2]).
Proof.
  intros env site1 site2.
  assert (H1 : run env (traverse site1) [] = Normal (tt, [rejectAnError site1]))
    by (vm_compute; reflexivity).
  assert (H2 : run env (traverse site2) [] = Normal (tt, [rejectAnError site2]))
    by (vm_compute; reflexivity).
  split; [exact H1|]. split; [exact H2|].
  exact (run_concatenation env _ _ _ _ [] H1 H2).
Defined.

Lemma allowEmptyReject_drops_only_empty_calls_witness :
  let program := newPromise rejectParam threeRejects in
  let env1 := exampleEnv false threeRejectReads program in
  let env2 := exampleEnv true threeRejectReads program in
  let call5 := CallExpression 20 (Identifier 21 "reject") [Literal 22 "5"] in
  let call0 := CallExpression 28 (Identifier 29 "reject") [] in
  run env1 (traverse program) []
    = Normal (tt, [] ++ [rejectAnError call5; rejectAnError call0])
  /\ run env2 (traverse program) []
     = Normal (tt, [] ++ List.filter hasArgument
                          [rejectAnError call5; rejectAnError call0]).
Proof.
  intros program env1 env2 call5 call0.
  assert (H : run env1 (traverse program) []
              = Normal (tt, [] ++ [rejectAnError call5; rejectAnError call0]))
    by (vm_compute; reflexivity).
  split; [exact H|].
  apply (allowEmptyReject_drops_only_empty_calls env1 env2 (traverse program)
           [] _ (conj eq_refl eq_refl) (fun _ => eq_refl) eq_refl eq_refl H).
Defined.

Lemma tolerant_couldBeError_reports_less_witness :
  let program := newPromise rejectParam threeRejects in
  let env1 := exampleEnv false threeRejectReads program in
  let env2 := {| allowEmptyReject := false;
                 getDeclaredVariables := exampleScope threeRejectReads;
                 couldBeError := tolerantCouldBeError;
                 parents := link program |} in
  let call5 := CallExpression 20 (Identifier 21 "reject") [Literal 22 "5"] in
  let call0 := CallExpression 28 (Identifier 29 "reject") [] in
  run env1 (traverse program) []
    = Normal (tt, [] ++ [rejectAnError call5; rejectAnError call0])
  /\ exists added2,
       run env2 (traverse program) [] = Normal (tt, [] ++ added2)
       /\ sublist added2 [rejectAnError call5; rejectAnError call0].
Proof.
  intros program env1 env2 call5 call0.
  assert (H : run env1 (traverse program) []
              = Normal (tt, [] ++ [rejectAnError call5; rejectAnError call0]))
    by (vm_compute; reflexivity).
  split; [exact H|].
  apply (tolerant_couldBeError_reports_less env1 env2 (traverse program)
           [] _ (conj eq_refl eq_refl) eq_refl (fun _ _ => eq_refl) H).
Defined.

Lemma run_throws_only_at_find_or_parent_witness :
  let env := {| allowEmptyReject := false;
                getDeclaredVariables := fun _ => [];
                couldBeError := exampleCouldBeError;
                parents := link (newPromise rejectParam rejectBad) |} in
  let events := traverse (newPromise rejectParam rejectBad) in
  run env events [] = Throw (TypeError "find(...).references")
  /\ (TypeError "find(...).references" = TypeError "find(...).references"
      \/ TypeError "find(...).references" = TypeError "ref.identifier.parent").
Proof.
  intros env events.
  assert (H : run env events [] = Throw (TypeError "find(...).references"))
    by (vm_compute; reflexivity).
  split; [exact H|].
  exact (run_throws_only_at_find_or_parent env events [] _ H).
Defined.
